(** * STEMI post-PCI mortality prediction: the prediction block of
    [streamlit_app.py] as Rocq functions.

    The artifacts loaded at start-up ([gbm_model.pkl], [scaler.pkl],
    [features.txt]) are opaque: they are the fields of the [Pipeline]
    record.  Python's [float] arithmetic is modelled by [Q]; a missing
    DataFrame cell (pandas' [NaN]) is [None]; a raised exception, caught by
    the [try]/[except] around the prediction block and reported with
    [st.error], is [None] as the result of [score]. *)

From Stdlib Require Import List String Ascii ZArith QArith Bool Permutation.
From Stdlib Require Import DecimalString Lia.
Import ListNotations.
Open Scope string_scope.

(** ** Raw form values *)

(** [inputs] maps display names to what the widgets return: an [int] from
    a slider or a [str] from a selectbox. *)
Inductive value : Type :=
| VInt (z : Z)
| VStr (s : string).

(** ** Python dicts as association lists (insertion order kept) *)

Section Dict.
Context {A : Type}.

(** [d[k]]: [None] is a [KeyError] (or [.get] returning nothing). *)
Fixpoint dict_get (k : string) (d : list (string * A)) : option A :=
  match d with
  | [] => None
  | (k', v) :: d' => if String.eqb k k' then Some v else dict_get k d'
  end.

(** [d[k] = v]: overwrite in place if present, else append. *)
Fixpoint dict_set (k : string) (v : A) (d : list (string * A))
  : list (string * A) :=
  match d with
  | [] => [(k, v)]
  | (k', v') :: d' =>
      if String.eqb k k' then (k, v) :: d' else (k', v') :: dict_set k v d'
  end.

End Dict.

(** ** Constants of the script *)

Definition feature_mapping : list (string * string) :=
  [ ("Age", "Age");
    ("Hb", "Hb");
    ("AST", "AST");
    ("Respiratory support", "Respiratory_support");
    ("Beta blocker", "Beta_blocker");
    ("Cardiotonics", "Cardiotonics");
    ("Statins", "Statins");
    ("Stent for IRA", "Stent_for_IRA") ].

Definition stent_mapping : list (string * Z) :=
  [ ("No stent", 0%Z);
    ("Drug-eluting stent (DES)", 1%Z);
    ("Bare-metal stent (BMS)", 2%Z) ].

Definition normal_ranges : list (string * (Z * Z)) :=
  [ ("Age", (18%Z, 120%Z));
    ("Hb", (130%Z, 175%Z));
    ("AST", (10%Z, 40%Z)) ].

(** ** Loaded artifacts *)

(** [scaler] is a fitted [StandardScaler]: its width [n_features_in_],
    the column names it was fitted on ([feature_names_in_], absent when it
    was fitted on an array), its flags [with_mean] and [with_std] and its
    per-column [mean_] and [scale_]; [model]'s [predict_proba(X)[:, 1][0]]
    is a partial function of the row; [features] is the line list of
    [features.txt]. *)
Record Pipeline : Type := {
  model : list (option Q) -> option Q;
  n_features_in_ : nat;
  feature_names_in_ : option (list string);
  with_mean : bool;
  with_std : bool;
  mean_ : list Q;
  scale_ : list Q;
  features : list string
}.

(** ** Lines 176-191: converting [inputs] to [input_data] *)

(** The loop body for one [(display_name, value)] pair: the model feature
    name and its numeric code. *)
Definition convert_entry (display_name : string) (v : value)
  : option (string * Z) :=
  match dict_get display_name feature_mapping with
  | None => None
  | Some model_feature =>
      if String.eqb display_name "Stent for IRA" then
        match v with
        | VStr s =>
            match dict_get s stent_mapping with
            | Some c => Some (model_feature, c)
            | None => None
            end
        | VInt _ => None
        end
      else
        match v with
        | VStr s => Some (model_feature, if String.eqb s "Yes" then 1%Z else 0%Z)
        | VInt z => Some (model_feature, z)
        end
  end.

Fixpoint convert_loop (input_data : list (string * Z))
         (l : list (string * value)) : option (list (string * Z)) :=
  match l with
  | [] => Some input_data
  | (display_name, v) :: l' =>
      match convert_entry display_name v with
      | None => None
      | Some (f, c) => convert_loop (dict_set f c input_data) l'
      end
  end.

Definition convert_inputs (inputs : list (string * value))
  : option (list (string * Z)) :=
  convert_loop [] inputs.

(** ** Line 198: [pd.DataFrame([input_data], columns=features)] *)

(** Columns are selected by name in [features] order; a name missing from
    [input_data] gives a [NaN] cell. *)
Definition build_row (feats : list string) (input_data : list (string * Z))
  : list (option Q) :=
  map (fun f => option_map inject_Z (dict_get f input_data)) feats.

(** ** Line 204: [scaler.transform(df)] *)

(** [StandardScaler.transform] on one cell: [NaN] stays [NaN]. *)
Definition standardize (x : option Q) (m s : Q) : option Q :=
  option_map (fun v => (v - m) / s) x.

(** One cell of [transform]: [X -= mean_] if [with_mean], then
    [X /= scale_] if [with_std]. *)
Definition scale_cell (wm ws : bool) (x : option Q) (m s : Q) : option Q :=
  option_map (fun v => let c := if wm then v - m else v in if ws then c / s else c) x.

Fixpoint transform_cols (wm ws : bool) (row : list (option Q)) (ms ss : list Q)
  : list (option Q) :=
  match row with
  | [] => []
  | x :: row' =>
      scale_cell wm ws x (hd 0 ms) (hd 1 ss) :: transform_cols wm ws row' (tl ms) (tl ss)
  end.

(** The feature-name check of [transform]: the DataFrame's columns are
    [features]; a scaler fitted with names raises a [ValueError] unless
    they are the same names in the same order (one fitted without names
    only warns). *)
Definition names_match (pl : Pipeline) : bool :=
  match feature_names_in_ pl with
  | None => true
  | Some names =>
      if list_eq_dec String.string_dec names (features pl) then true else false
  end.

(** [scaler.transform(df)]: the name check, then the width check (a
    [ValueError] on a mismatch), then the column-wise scaling. *)
Definition transform (pl : Pipeline) (row : list (option Q))
  : option (list (option Q)) :=
  if names_match pl then
    if Nat.eqb (List.length row) (n_features_in_ pl) then
      Some (transform_cols (with_mean pl) (with_std pl) row (mean_ pl) (scale_ pl))
    else None
  else None.

(** The scaler accepts the DataFrame built from [features]. *)
Definition scaler_accepts (pl : Pipeline) : Prop :=
  names_match pl = true /\ List.length (features pl) = n_features_in_ pl.

(** ** Line 208: risk status *)

Inductive risk_status : Type := HighRisk | LowRisk.

Definition risk_threshold : Q := 147 # 1000.

Definition classify (prob : Q) : risk_status :=
  if Qle_bool risk_threshold prob then HighRisk else LowRisk.

(** ** Lines 215-239: abnormal values and advice *)

(** Python's [f"{value}"] on an [int]. *)
Definition py_str (z : Z) : string := NilZero.string_of_int (Z.to_int z).

(** The loop body for one [(display_name, value)] pair: what it appends to
    [abnormal_vars] and to [advice].  Comparing a [str] with an [int]
    raises a [TypeError]. *)
Definition check_entry (display_name : string) (v : value)
  : option (list string * list string) :=
  match dict_get display_name normal_ranges with
  | None => Some ([], [])
  | Some (lower, upper) =>
      match v with
      | VStr _ => None
      | VInt value =>
          if (value <? lower)%Z || (value >? upper)%Z then
            let adv :=
              if String.eqb display_name "Hb" then
                if (value <? lower)%Z then
                  ["<b>Hemoglobin (" ++ py_str value ++ " g/L)</b>: Below normal range (130-175 g/L). Consider anemia workup and iron studies."]
                else
                  ["<b>Hemoglobin (" ++ py_str value ++ " g/L)</b>: Above normal range (130-175 g/L). Evaluate for polycythemia."]
              else if String.eqb display_name "AST" then
                if (value >? upper)%Z then
                  ["<b>AST (" ++ py_str value ++ " U/L)</b>: Elevated above normal (10-40 U/L). May indicate ongoing myocardial injury or liver dysfunction."]
                else []
              else if String.eqb display_name "Age" then
                if (value >? 75)%Z then
                  ["<b>Age (" ++ py_str value ++ " years)</b>: Advanced age is an independent risk factor for adverse outcomes in STEMI."]
                else []
              else []
            in Some ([display_name], adv)
          else Some ([], [])
      end
  end.

(** The [for display_name, value in inputs.items()] loop: the two lists
    grow in iteration order; the first [TypeError] aborts it. *)
Fixpoint advisory_loop (l : list (string * value))
  : option (list string * list string) :=
  match l with
  | [] => Some ([], [])
  | (display_name, v) :: l' =>
      match check_entry display_name v with
      | None => None
      | Some (ab, adv) =>
          match advisory_loop l' with
          | None => None
          | Some (ab', adv') => Some ((ab ++ ab')%list, (adv ++ adv')%list)
          end
      end
  end.

(** ** The prediction block (lines 174-239) *)

Record Result : Type := {
  prob : Q;
  risk : risk_status;
  abnormal_vars : list string;
  advice : list string
}.

(** The row handed to [model.predict_proba]. *)
Definition classifier_input (pl : Pipeline) (inputs : list (string * value))
  : option (list (option Q)) :=
  match convert_inputs inputs with
  | None => None
  | Some input_data => transform pl (build_row (features pl) input_data)
  end.

Definition score (pl : Pipeline) (inputs : list (string * value))
  : option Result :=
  match classifier_input pl inputs with
  | None => None
  | Some df_scaled =>
      match model pl df_scaled with
      | None => None
      | Some p =>
          match advisory_loop inputs with
          | None => None
          | Some (ab, adv) =>
              Some {| prob := p; risk := classify p;
                      abnormal_vars := ab; advice := adv |}
          end
      end
  end.

(** [s] occurs in [t]. *)
Fixpoint contains (s t : string) : bool :=
  String.prefix s t ||
  match t with
  | EmptyString => false
  | String _ t' => contains s t'
  end.

(** A form as the sidebar builds it. *)
Definition form (age hb ast : Z) (resp beta cardio statins stent : string)
  : list (string * value) :=
  [ ("Age", VInt age); ("Hb", VInt hb); ("AST", VInt ast);
    ("Respiratory support", VStr resp); ("Beta blocker", VStr beta);
    ("Cardiotonics", VStr cardio); ("Statins", VStr statins);
    ("Stent for IRA", VStr stent) ].

Definition demo_pipeline : Pipeline := {|
  model := fun _ => Some (1 # 5);
  n_features_in_ := 8;
  feature_names_in_ := Some ["Age"; "Hb"; "AST"; "Respiratory_support"; "Beta_blocker";
                             "Cardiotonics"; "Statins"; "Stent_for_IRA"];
  with_mean := true;
  with_std := true;
  mean_ := [65; 130; 30; 3 # 10; 1 # 2; 1 # 5; 7 # 10; 1];
  scale_ := [10; 20; 50; 1 # 2; 1 # 2; 2 # 5; 1 # 2; 1 # 2];
  features := ["Age"; "Hb"; "AST"; "Respiratory_support"; "Beta_blocker";
               "Cardiotonics"; "Statins"; "Stent_for_IRA"]
|}.

(** The sidebar defaults (Age 65, Hb 130, AST 30, all "No", no stent). *)
Definition default_form : list (string * value) :=
  form 65 130 30 "No" "No" "No" "No" "No stent".

(** The app between two submissions: the prediction block only reads the
    loaded artifacts, it never rebinds them. *)
Definition predict_step (pl : Pipeline) (inputs : list (string * value))
  : Pipeline * option Result :=
  (pl, score pl inputs).

(** ** Helper lemmas *)

Lemma nth_error_transform_cols :
  forall wm ws row ms ss i x,
    nth_error row i = Some x ->
    nth_error (transform_cols wm ws row ms ss) i
      = Some (scale_cell wm ws x (nth i ms 0) (nth i ss 1)).
Proof.
  intros wm ws. induction row as [|x0 row IH]; intros ms ss i x Hr.
  - destruct i; discriminate.
  - destruct i as [|i]; simpl in *.
    + injection Hr as ->. destruct ms, ss; reflexivity.
    + rewrite (IH (tl ms) (tl ss) i x Hr).
      destruct ms, ss; simpl; try destruct i; reflexivity.
Qed.

Lemma scale_cell_default : forall x m s, scale_cell true true x m s = standardize x m s.
Proof. reflexivity. Qed.

Lemma nth_error_build_row :
  forall feats d i f,
    nth_error feats i = Some f ->
    nth_error (build_row feats d) i = Some (option_map inject_Z (dict_get f d)).
Proof.
  intros feats d i f H. unfold build_row. rewrite nth_error_map, H. reflexivity.
Qed.

Lemma build_row_length :
  forall feats d, List.length (build_row feats d) = List.length feats.
Proof. intros. unfold build_row. apply length_map. Qed.

Lemma classifier_input_nth :
  forall pl inputs input_data i f,
    convert_inputs inputs = Some input_data ->
    scaler_accepts pl ->
    nth_error (features pl) i = Some f ->
    exists row,
      classifier_input pl inputs = Some row /\
      nth_error row i = Some (scale_cell (with_mean pl) (with_std pl)
                                (option_map inject_Z (dict_get f input_data))
                                (nth i (mean_ pl) 0) (nth i (scale_ pl) 1)).
Proof.
  intros pl inputs d i f Hc [Hn Hl] Hf.
  unfold classifier_input. rewrite Hc. unfold transform.
  rewrite Hn, build_row_length, Hl, Nat.eqb_refl.
  eexists; split; [reflexivity|].
  apply nth_error_transform_cols. apply nth_error_build_row. exact Hf.
Qed.

Lemma classifier_input_rejected :
  forall pl inputs, ~ scaler_accepts pl -> classifier_input pl inputs = None.
Proof.
  intros pl inputs H. unfold classifier_input.
  destruct (convert_inputs inputs) as [d|]; [|reflexivity].
  unfold transform. rewrite build_row_length.
  destruct (names_match pl) eqn:En; [|reflexivity].
  destruct (Nat.eqb_spec (List.length (features pl)) (n_features_in_ pl)) as [E|_];
    [|reflexivity].
  exfalso. apply H. split; assumption.
Qed.

Lemma score_some_inv :
  forall pl inputs r,
    score pl inputs = Some r ->
    exists row,
      classifier_input pl inputs = Some row /\
      model pl row = Some (prob r) /\
      risk r = classify (prob r) /\
      advisory_loop inputs = Some (abnormal_vars r, advice r).
Proof.
  intros pl inputs r H. unfold score in H.
  destruct (classifier_input pl inputs) as [row|]; [|discriminate].
  destruct (model pl row) as [p|] eqn:Hm; [|discriminate].
  destruct (advisory_loop inputs) as [[ab adv]|] eqn:Ha; [|discriminate].
  injection H as <-. exists row. simpl. auto.
Qed.

Lemma dict_get_In :
  forall {A} k (d : list (string * A)) v, dict_get k d = Some v -> In (k, v) d.
Proof.
  intros A k d v. induction d as [|[k' v'] d IH]; simpl; [discriminate|].
  destruct (String.eqb_spec k k') as [->|_]; [intros H; injection H as ->; auto|].
  intros H; right; auto.
Qed.

Lemma convert_loop_fail :
  forall l acc k v,
    In (k, v) l -> convert_entry k v = None -> convert_loop acc l = None.
Proof.
  induction l as [|[k0 v0] l IH]; intros acc k v Hin Hc; [contradiction|].
  simpl. destruct Hin as [E|Hin].
  - injection E as -> ->. rewrite Hc. reflexivity.
  - destruct (convert_entry k0 v0) as [[f c]|]; eauto.
Qed.

Lemma advisory_loop_app :
  forall k v l ab adv,
    advisory_loop ((k, v) :: l) = Some (ab, adv) ->
    exists ab1 adv1 ab2 adv2,
      check_entry k v = Some (ab1, adv1) /\ advisory_loop l = Some (ab2, adv2) /\
      ab = (ab1 ++ ab2)%list /\ adv = (adv1 ++ adv2)%list.
Proof.
  intros k v l ab adv H. simpl in H.
  destruct (check_entry k v) as [[ab1 adv1]|]; [|discriminate].
  destruct (advisory_loop l) as [[ab2 adv2]|]; [|discriminate].
  injection H as <- <-. repeat eexists.
Qed.

(** An entry's advice ends up in the loop's advice. *)
Lemma advisory_loop_In :
  forall l k v ab adv ab1 adv1,
    In (k, v) l -> check_entry k v = Some (ab1, adv1) ->
    advisory_loop l = Some (ab, adv) ->
    forall a, In a adv1 -> In a adv.
Proof.
  induction l as [|[k0 v0] l IH]; intros k v ab adv ab1 adv1 Hin Hc Hl a Ha;
    [contradiction|].
  destruct (advisory_loop_app _ _ _ _ _ Hl) as (ab0 & adv0 & ab2 & adv2 & H0 & H2 & -> & ->).
  apply in_or_app. destruct Hin as [E|Hin].
  - injection E as -> ->. left. congruence.
  - right. eauto.
Qed.

Lemma check_entry_AST_low :
  forall v, (v < 10)%Z -> check_entry "AST" (VInt v) = Some (["AST"], []).
Proof.
  intros v Hv. unfold check_entry. simpl dict_get. cbv iota beta.
  assert (E : (v <? 10)%Z = true) by (apply Z.ltb_lt; exact Hv).
  assert (E' : (v >? 40)%Z = false) by (rewrite Z.gtb_ltb; apply Z.ltb_ge; lia).
  rewrite E, E'. reflexivity.
Qed.

Lemma check_entry_in_range :
  forall k lower upper v,
    dict_get k normal_ranges = Some (lower, upper) ->
    (lower <= v <= upper)%Z -> check_entry k (VInt v) = Some ([], []).
Proof.
  intros k lower upper v Hk Hv. unfold check_entry. rewrite Hk.
  assert (E : (v <? lower)%Z = false) by (apply Z.ltb_ge; lia).
  assert (E' : (v >? upper)%Z = false) by (rewrite Z.gtb_ltb; apply Z.ltb_ge; lia).
  rewrite E, E'. reflexivity.
Qed.

(** The input dict the sidebar defaults convert to. *)
Definition default_data : list (string * Z) :=
  [ ("Age", 65%Z); ("Hb", 130%Z); ("AST", 30%Z); ("Respiratory_support", 0%Z);
    ("Beta_blocker", 0%Z); ("Cardiotonics", 0%Z); ("Statins", 0%Z);
    ("Stent_for_IRA", 0%Z) ].

Definition default_result : Result :=
  {| prob := 1 # 5; risk := HighRisk; abnormal_vars := []; advice := [] |}.

Lemma check_entry_none_iff :
  forall k v, check_entry k v = None <->
    dict_get k normal_ranges <> None /\ exists s, v = VStr s.
Proof.
  intros k v. unfold check_entry.
  destruct (dict_get k normal_ranges) as [[lo hi]|]; split.
  - destruct v as [z|s]; [|intros _; split; [discriminate|exists s; reflexivity]].
    destruct ((z <? lo)%Z || (z >? hi)%Z); discriminate.
  - intros [_ [s ->]]. reflexivity.
  - discriminate.
  - intros [H _]. exfalso. apply H. reflexivity.
Qed.

Lemma advisory_loop_none_iff :
  forall inputs,
    advisory_loop inputs = None <->
    exists k s, In (k, VStr s) inputs /\ dict_get k normal_ranges <> None.
Proof.
  induction inputs as [|[k0 v0] l IH]; split.
  - discriminate.
  - intros (k & s & [] & _).
  - simpl. destruct (check_entry k0 v0) as [[ab adv]|] eqn:E.
    + destruct (advisory_loop l) as [[ab' adv']|]; [discriminate|].
      intros _. destruct (proj1 IH eq_refl) as (k & s & Hin & Hm).
      exists k, s. split; [right|]; assumption.
    + intros _. apply check_entry_none_iff in E as [Hm [s ->]].
      exists k0, s. split; [left; reflexivity|exact Hm].
  - intros (k & s & [E|Hin] & Hm); simpl.
    + injection E as -> ->.
      assert (E : check_entry k (VStr s) = None) by (apply check_entry_none_iff; eauto).
      rewrite E. reflexivity.
    + destruct (check_entry k0 v0) as [[ab adv]|]; [|reflexivity].
      rewrite (proj2 IH (ex_intro _ k (ex_intro _ s (conj Hin Hm)))). reflexivity.
Qed.

(** The demo scaler fitted on the same columns with Age and Hb swapped. *)
Definition swapped_pipeline : Pipeline := {|
  model := model demo_pipeline; n_features_in_ := 8;
  feature_names_in_ := Some ["Hb"; "Age"; "AST"; "Respiratory_support"; "Beta_blocker";
                             "Cardiotonics"; "Statins"; "Stent_for_IRA"];
  with_mean := true; with_std := true;
  mean_ := mean_ demo_pipeline; scale_ := scale_ demo_pipeline;
  features := features demo_pipeline |}.

(** ** Claims *)

(** C1 (amended).  [scaler.transform] is applied to the WHOLE row.  It
    raises unless the scaler accepts the DataFrame (fitted names, if any,
    equal to [features] in order; width equal to their count).  When it
    accepts, position [i] of what the classifier receives, categorical and
    ordinal ones included, is the value of [features[i]] centred by
    [mean_[i]] (if [with_mean]) and divided by [scale_[i]] (if [with_std]):
    [(value - mean_[i]) / scale_[i]] for the default scaler.  With mean 130,
    scale 20, raw value 130 gives 0. *)
Theorem C1_every_position_standardized :
  (forall q, standardize (Some (inject_Z 130)) 130 20 = Some q -> q == 0) /\
  (forall x m s, scale_cell true true x m s = standardize x m s) /\
  (forall pl inputs, ~ scaler_accepts pl -> classifier_input pl inputs = None) /\
  (forall pl inputs input_data i f,
    convert_inputs inputs = Some input_data ->
    scaler_accepts pl ->
    nth_error (features pl) i = Some f ->
    exists row,
      classifier_input pl inputs = Some row /\
      nth_error row i = Some (scale_cell (with_mean pl) (with_std pl)
                                (option_map inject_Z (dict_get f input_data))
                                (nth i (mean_ pl) 0) (nth i (scale_ pl) 1))).
Proof.
  split; [|split; [exact scale_cell_default|split]].
  - intros q H. simpl in H. injection H as <-. reflexivity.
  - exact classifier_input_rejected.
  - exact classifier_input_nth.
Qed.

Lemma C1_every_position_standardized_witness :
  (forall q, standardize (Some (inject_Z 130)) 130 20 = Some q -> q == 0) /\
  classifier_input swapped_pipeline default_form = None /\
  exists row,
    classifier_input demo_pipeline default_form = Some row /\
    nth_error row 1%nat = Some (scale_cell true true
                                  (option_map inject_Z (dict_get "Hb" default_data))
                                  (nth 1 (mean_ demo_pipeline) 0) (nth 1 (scale_ demo_pipeline) 1)).
Proof.
  split; [exact (proj1 C1_every_position_standardized)|].
  split.
  - apply (proj1 (proj2 (proj2 C1_every_position_standardized))).
    intros [Hn _]. discriminate Hn.
  - exact (proj2 (proj2 (proj2 C1_every_position_standardized)) demo_pipeline default_form
             default_data 1%nat "Hb" eq_refl (conj eq_refl eq_refl) eq_refl).
Defined.

(** C1 fails as stated: the binary [Statins] position ("Yes", code 1) with
    scaler column mean 0.7, scale 0.5 reaches the classifier as 0.6, not 1. *)
Lemma C1_categorical_position_scaled :
  option_map (fun row => nth_error row 6%nat)
    (classifier_input demo_pipeline (form 65 130 30 "No" "No" "No" "Yes" "No stent"))
    = Some (Some (Some (6 # 10))) /\
  convert_inputs (form 65 130 30 "No" "No" "No" "Yes" "No stent")
    = Some [("Age", 65%Z); ("Hb", 130%Z); ("AST", 30%Z); ("Respiratory_support", 0%Z);
            ("Beta_blocker", 0%Z); ("Cardiotonics", 0%Z); ("Statins", 1%Z);
            ("Stent_for_IRA", 0%Z)] /\
  ~ (6 # 10 == 1).
Proof.
  split; [vm_compute; reflexivity|].
  split; [reflexivity|].
  intro H. discriminate H.
Qed.

(** C3.  The label is High exactly when [prob >= 0.147], Low otherwise;
    0.147 gives High, 0.146999 gives Low; the cutoff is the constant
    [risk_threshold] and [score] labels every probability with it. *)
Theorem C3_risk_threshold :
  risk_threshold = 147 # 1000 /\
  (forall p, classify p = HighRisk <-> risk_threshold <= p) /\
  (forall p, classify p = LowRisk <-> p < risk_threshold) /\
  classify (147 # 1000) = HighRisk /\
  classify (146999 # 1000000) = LowRisk /\
  (forall pl inputs r, score pl inputs = Some r -> risk r = classify (prob r)).
Proof.
  split; [reflexivity|].
  split; [|split; [|split; [reflexivity|split; [reflexivity|]]]].
  - intro p. unfold classify. rewrite <- Qle_bool_iff.
    destruct (Qle_bool risk_threshold p); split; congruence.
  - intro p. unfold classify. split.
    + destruct (Qle_bool risk_threshold p) eqn:E; [discriminate|].
      intros _. apply Qnot_le_lt. rewrite <- Qle_bool_iff. congruence.
    + intro H. destruct (Qle_bool risk_threshold p) eqn:E; [|reflexivity].
      apply Qle_bool_iff in E. exfalso. apply (Qlt_not_le _ _ H E).
  - intros pl inputs r H.
    destruct (score_some_inv _ _ _ H) as (row & _ & _ & Hr & _). exact Hr.
Qed.

Lemma C3_risk_threshold_witness :
  score demo_pipeline default_form = Some default_result /\
  risk default_result = classify (prob default_result).
Proof.
  split; [reflexivity|].
  exact (proj2 (proj2 (proj2 (proj2 (proj2 C3_risk_threshold))))
           demo_pipeline default_form default_result eq_refl).
Defined.

(** C5.  Every mapped field other than the stent field codes "Yes" as 1,
    "No" as 0 and passes an [int] through; the stent labels "No stent",
    "Drug-eluting stent (DES)", "Bare-metal stent (BMS)" code as 0, 1, 2. *)
Theorem C5_categorical_mapping :
  (forall k f,
     dict_get k feature_mapping = Some f -> k <> "Stent for IRA" ->
     convert_entry k (VStr "Yes") = Some (f, 1%Z) /\
     convert_entry k (VStr "No") = Some (f, 0%Z) /\
     (forall z, convert_entry k (VInt z) = Some (f, z))) /\
  convert_entry "Stent for IRA" (VStr "No stent") = Some ("Stent_for_IRA", 0%Z) /\
  convert_entry "Stent for IRA" (VStr "Drug-eluting stent (DES)") = Some ("Stent_for_IRA", 1%Z) /\
  convert_entry "Stent for IRA" (VStr "Bare-metal stent (BMS)") = Some ("Stent_for_IRA", 2%Z).
Proof.
  split; [|repeat split].
  intros k f Hk Hs. unfold convert_entry. rewrite Hk.
  destruct (String.eqb_spec k "Stent for IRA") as [E|_]; [contradiction|].
  repeat split.
Qed.

Lemma C5_categorical_mapping_witness :
  convert_entry "Statins" (VStr "Yes") = Some ("Statins", 1%Z) /\
  convert_entry "Statins" (VStr "No") = Some ("Statins", 0%Z) /\
  (forall z, convert_entry "Statins" (VInt z) = Some ("Statins", z)).
Proof.
  apply (proj1 C5_categorical_mapping "Statins" "Statins"); [reflexivity|].
  intro H. discriminate H.
Defined.

(** C6 (amended).  A string other than "Yes" in a field other than the
    stent field is coded 0 without any error; a stent value that is not one
    of the three labels makes the conversion fail ([KeyError]), so the call
    yields no result. *)
Theorem C6_unrecognized_values :
  (forall k f s,
     dict_get k feature_mapping = Some f -> k <> "Stent for IRA" -> s <> "Yes" ->
     convert_entry k (VStr s) = Some (f, 0%Z)) /\
  (forall v pl inputs,
     convert_entry "Stent for IRA" v = None ->
     In ("Stent for IRA", v) inputs -> score pl inputs = None) /\
  (forall s, dict_get s stent_mapping = None ->
     convert_entry "Stent for IRA" (VStr s) = None) /\
  (forall z, convert_entry "Stent for IRA" (VInt z) = None).
Proof.
  split; [|split; [|split]].
  - intros k f s Hk Hn Hs. unfold convert_entry. rewrite Hk.
    destruct (String.eqb_spec k "Stent for IRA") as [E|_]; [contradiction|].
    destruct (String.eqb_spec s "Yes") as [E|_]; [contradiction|reflexivity].
  - intros v pl inputs Hv Hin. unfold score, classifier_input, convert_inputs.
    rewrite (convert_loop_fail _ _ _ _ Hin Hv). reflexivity.
  - intros s Hs. unfold convert_entry.
    change (dict_get "Stent for IRA" feature_mapping) with (Some "Stent_for_IRA").
    change (String.eqb "Stent for IRA" "Stent for IRA") with true.
    cbv beta iota. rewrite Hs. reflexivity.
  - intro z. reflexivity.
Qed.

Lemma C6_unrecognized_values_witness :
  convert_entry "Statins" (VStr "Maybe") = Some ("Statins", 0%Z) /\
  score demo_pipeline (form 65 130 30 "No" "No" "No" "No" "Unknown stent") = None.
Proof.
  split.
  - apply (proj1 C6_unrecognized_values "Statins" "Statins" "Maybe"); [reflexivity| |];
      intro H; discriminate H.
  - apply (proj1 (proj2 C6_unrecognized_values) (VStr "Unknown stent")).
    + apply (proj1 (proj2 (proj2 C6_unrecognized_values))). reflexivity.
    + simpl. right; right; right; right; right; right; right; left; reflexivity.
Defined.

(** C6 fails as stated: the unrecognized value "Maybe" in the [Statins]
    field is silently coded 0 and the whole call succeeds. *)
Lemma C6_invalid_binary_coerced :
  convert_entry "Statins" (VStr "Maybe") = Some ("Statins", 0%Z) /\
  score demo_pipeline (form 65 130 30 "No" "No" "No" "Maybe" "No stent")
    = Some default_result.
Proof. split; reflexivity. Qed.

(** C7 (code as written).  The [value > 75] age advice is nested inside
    the out-of-range test for [normal_ranges['Age'] = (18, 120)], so for any
    age in 18..120 (Age 80 in particular) nothing is flagged and no advice
    is produced. *)
Theorem C7_age_80_no_advice :
  (forall v, (18 <= v <= 120)%Z -> check_entry "Age" (VInt v) = Some ([], [])) /\
  score demo_pipeline (form 80 130 30 "No" "No" "No" "No" "No stent")
    = Some {| prob := 1 # 5; risk := HighRisk; abnormal_vars := []; advice := [] |}.
Proof.
  split; [|reflexivity].
  intros v Hv. apply (check_entry_in_range "Age" 18 120); [reflexivity|exact Hv].
Qed.

Lemma C7_age_80_no_advice_witness :
  check_entry "Age" (VInt 80) = Some ([], []).
Proof. apply (proj1 C7_age_80_no_advice 80%Z). split; discriminate. Defined.

Lemma check_entry_unmonitored :
  forall k v, dict_get k normal_ranges = None -> check_entry k v = Some ([], []).
Proof. intros k v H. unfold check_entry. rewrite H. reflexivity. Qed.

(** Inputs whose monitored entries are Age 65, Hb 140, AST 20. *)
Lemma advisory_loop_normal :
  forall inputs,
    (forall k v, In (k, v) inputs -> dict_get k normal_ranges <> None ->
       (k = "Age" /\ v = VInt 65) \/ (k = "Hb" /\ v = VInt 140) \/
       (k = "AST" /\ v = VInt 20)) ->
    advisory_loop inputs = Some ([], []).
Proof.
  induction inputs as [|[k v] l IH]; intros H; [reflexivity|].
  simpl advisory_loop.
  assert (Hk : check_entry k v = Some ([], [])).
  { destruct (dict_get k normal_ranges) as [r|] eqn:E.
    - assert (Hm : dict_get k normal_ranges <> None) by (rewrite E; discriminate).
      destruct (H k v (or_introl eq_refl) Hm) as [[-> ->]|[[-> ->]|[-> ->]]];
        reflexivity.
    - apply check_entry_unmonitored; exact E. }
  rewrite Hk, IH; [reflexivity|].
  intros k' v' Hin. apply H. right. exact Hin.
Qed.

(** C8.  Hb 90 yields an anemia-workup advice quoting "90"; AST 250 yields
    a myocardial-injury advice quoting "250"; Age 65, Hb 140, AST 20 yield
    no advice at all (whatever the other fields are). *)
Theorem C8_advisory_scenarios :
  (forall pl inputs r,
     In ("Hb", VInt 90) inputs -> score pl inputs = Some r ->
     exists a, In a (advice r) /\ contains "90" a = true /\
               contains "anemia workup" a = true) /\
  (forall pl inputs r,
     In ("AST", VInt 250) inputs -> score pl inputs = Some r ->
     exists a, In a (advice r) /\ contains "250" a = true /\
               contains "myocardial injury" a = true) /\
  (forall pl inputs r,
     (forall k v, In (k, v) inputs -> dict_get k normal_ranges <> None ->
        (k = "Age" /\ v = VInt 65) \/ (k = "Hb" /\ v = VInt 140) \/
        (k = "AST" /\ v = VInt 20)) ->
     score pl inputs = Some r -> advice r = []).
Proof.
  split; [|split].
  - intros pl inputs r Hin Hs.
    destruct (score_some_inv _ _ _ Hs) as (row & _ & _ & _ & Ha).
    eexists. split.
    + eapply (advisory_loop_In _ _ _ _ _ _ _ Hin eq_refl Ha). left. reflexivity.
    + split; reflexivity.
  - intros pl inputs r Hin Hs.
    destruct (score_some_inv _ _ _ Hs) as (row & _ & _ & _ & Ha).
    eexists. split.
    + eapply (advisory_loop_In _ _ _ _ _ _ _ Hin eq_refl Ha). left. reflexivity.
    + split; reflexivity.
  - intros pl inputs r Hn Hs.
    destruct (score_some_inv _ _ _ Hs) as (row & _ & _ & _ & Ha).
    rewrite advisory_loop_normal in Ha by exact Hn. congruence.
Qed.

Lemma C8_advisory_scenarios_witness :
  (exists a, In a (advice
     {| prob := 1 # 5; risk := HighRisk; abnormal_vars := ["Hb"];
        advice := ["<b>Hemoglobin (90 g/L)</b>: Below normal range (130-175 g/L). Consider anemia workup and iron studies."] |}) /\
     contains "90" a = true /\ contains "anemia workup" a = true) /\
  (exists a, In a (advice
     {| prob := 1 # 5; risk := HighRisk; abnormal_vars := ["AST"];
        advice := ["<b>AST (250 U/L)</b>: Elevated above normal (10-40 U/L). May indicate ongoing myocardial injury or liver dysfunction."] |}) /\
     contains "250" a = true /\ contains "myocardial injury" a = true) /\
  advice {| prob := 1 # 5; risk := HighRisk; abnormal_vars := []; advice := [] |} = [].
Proof.
  split; [|split].
  - apply (proj1 C8_advisory_scenarios demo_pipeline
             (form 65 90 30 "No" "No" "No" "No" "No stent")).
    + simpl. right; left; reflexivity.
    + reflexivity.
  - apply (proj1 (proj2 C8_advisory_scenarios) demo_pipeline
             (form 65 130 250 "No" "No" "No" "No" "No stent")).
    + simpl. right; right; left; reflexivity.
    + reflexivity.
  - apply (proj2 (proj2 C8_advisory_scenarios) demo_pipeline
             (form 65 140 20 "Yes" "No" "Yes" "No" "Bare-metal stent (BMS)")).
    + intros k v Hin Hk. simpl in Hin.
      destruct Hin as [E|[E|[E|[E|[E|[E|[E|[E|[]]]]]]]]]; injection E as <- <-;
        auto; exfalso; apply Hk; reflexivity.
    + reflexivity.
Defined.

(** C9.  A prediction leaves the loaded artifacts as they were, and a
    second prediction on the same inputs returns the same result
    (probability, label and advice). *)
Theorem C9_deterministic :
  forall pl inputs,
    fst (predict_step pl inputs) = pl /\
    snd (predict_step (fst (predict_step pl inputs)) inputs) = snd (predict_step pl inputs).
Proof. intros pl inputs. split; reflexivity. Qed.

(** C10.  AST below 10 is flagged abnormal with no advice (the AST advice
    needs AST > 40); the range endpoints Hb 130, Hb 175, AST 10, AST 40 are
    not flagged, the comparisons being strict. *)
Theorem C10_strict_ranges :
  (forall v, (v < 10)%Z -> check_entry "AST" (VInt v) = Some (["AST"], [])) /\
  (forall v pl r, (v < 10)%Z ->
     score pl (form 65 140 v "No" "No" "No" "No" "No stent") = Some r ->
     abnormal_vars r = ["AST"] /\ advice r = []) /\
  check_entry "Hb" (VInt 130) = Some ([], []) /\
  check_entry "Hb" (VInt 175) = Some ([], []) /\
  check_entry "AST" (VInt 10) = Some ([], []) /\
  check_entry "AST" (VInt 40) = Some ([], []).
Proof.
  split; [exact check_entry_AST_low|].
  split; [|repeat split].
  intros v pl r Hv Hs.
  destruct (score_some_inv _ _ _ Hs) as (row & _ & _ & _ & Ha).
  unfold form in Ha. cbn [advisory_loop] in Ha.
  rewrite (check_entry_AST_low v Hv) in Ha. simpl in Ha.
  injection Ha as <- <-. split; reflexivity.
Qed.

Lemma C10_strict_ranges_witness :
  check_entry "AST" (VInt 5) = Some (["AST"], []) /\
  abnormal_vars {| prob := 1 # 5; risk := HighRisk; abnormal_vars := ["AST"]; advice := [] |}
    = ["AST"] /\
  advice {| prob := 1 # 5; risk := HighRisk; abnormal_vars := ["AST"]; advice := [] |} = [].
Proof.
  split.
  - apply (proj1 C10_strict_ranges 5%Z). reflexivity.
  - apply (proj1 (proj2 C10_strict_ranges) 5%Z demo_pipeline); reflexivity.
Defined.

(** ** Iteration order of [inputs] *)

(** [convert_entry] over the whole list, failing at the first failure. *)
Fixpoint conv_all (l : list (string * value)) : option (list (string * Z)) :=
  match l with
  | [] => Some []
  | (k, v) :: l' =>
      match convert_entry k v with
      | None => None
      | Some e => option_map (cons e) (conv_all l')
      end
  end.

Definition opt_rel {A} (R : A -> A -> Prop) (o1 o2 : option A) : Prop :=
  match o1, o2 with
  | Some a, Some b => R a b
  | None, None => True
  | _, _ => False
  end.

Definition set_all (m : list (string * Z)) (acc : list (string * Z))
  : list (string * Z) :=
  fold_left (fun d e => dict_set (fst e) (snd e) d) m acc.

Lemma convert_loop_conv_all :
  forall l acc, convert_loop acc l = option_map (fun m => set_all m acc) (conv_all l).
Proof.
  induction l as [|[k v] l IH]; intros acc; [reflexivity|].
  simpl. destruct (convert_entry k v) as [[f c]|]; [|reflexivity].
  rewrite IH. destruct (conv_all l); reflexivity.
Qed.

Lemma dict_set_fresh :
  forall {A} k (v : A) d, ~ In k (map fst d) -> dict_set k v d = (d ++ [(k, v)])%list.
Proof.
  intros A k v d. induction d as [|[k' v'] d IH]; intros Hn; [reflexivity|].
  simpl in *. destruct (String.eqb_spec k k') as [->|_].
  - exfalso. apply Hn. left. reflexivity.
  - rewrite IH; [reflexivity|]. intro H. apply Hn. right. exact H.
Qed.

Lemma set_all_nodup :
  forall m acc, NoDup (map fst (acc ++ m)) -> set_all m acc = (acc ++ m)%list.
Proof.
  induction m as [|[k v] m IH]; intros acc Hnd; [rewrite app_nil_r; reflexivity|].
  unfold set_all. simpl. fold (set_all m (dict_set k v acc)).
  rewrite map_app in Hnd. simpl in Hnd.
  rewrite dict_set_fresh.
  - rewrite IH.
    + rewrite <- app_assoc. reflexivity.
    + rewrite <- app_assoc. rewrite map_app. exact Hnd.
  - intro H. apply (NoDup_remove_2 _ _ _ Hnd). apply in_or_app. left. exact H.
Qed.

Lemma feature_mapping_inj :
  forall k1 k2 f,
    dict_get k1 feature_mapping = Some f -> dict_get k2 feature_mapping = Some f ->
    k1 = k2.
Proof.
  intros k1 k2 f H1 H2. apply dict_get_In in H1, H2. simpl in H1, H2.
  repeat destruct H1 as [H1|H1]; try contradiction;
    repeat destruct H2 as [H2|H2]; try contradiction;
    inversion H1; subst; inversion H2; subst; reflexivity.
Qed.

Lemma convert_entry_key :
  forall k v e, convert_entry k v = Some e -> dict_get k feature_mapping = Some (fst e).
Proof.
  intros k v e. unfold convert_entry.
  destruct (dict_get k feature_mapping) as [f|]; [|discriminate].
  destruct (String.eqb k "Stent for IRA").
  - destruct v as [z|s]; [discriminate|].
    destruct (dict_get s stent_mapping); [|discriminate].
    intro H. injection H as <-. reflexivity.
  - destruct v; intro H; injection H as <-; reflexivity.
Qed.

Lemma conv_all_keys :
  forall l m, conv_all l = Some m ->
    Forall2 (fun e e' => dict_get (fst e) feature_mapping = Some (fst e')) l m.
Proof.
  induction l as [|[k v] l IH]; intros m H; simpl in H.
  - injection H as <-. constructor.
  - destruct (convert_entry k v) as [e|] eqn:E; [|discriminate].
    destruct (conv_all l) as [m'|]; [|discriminate].
    injection H as <-. constructor; [|auto].
    exact (convert_entry_key _ _ _ E).
Qed.

Lemma Forall2_in_r :
  forall {A B} (R : A -> B -> Prop) l m y,
    Forall2 R l m -> In y m -> exists x, In x l /\ R x y.
Proof.
  intros A B R l m y H. induction H as [|x y' l m Hr H IH]; intros Hin; [contradiction|].
  destruct Hin as [<-|Hin].
  - exists x. split; [left; reflexivity|exact Hr].
  - destruct (IH Hin) as (x' & Hx & Hr'). exists x'. split; [right|]; assumption.
Qed.

Lemma conv_all_nodup :
  forall l m, NoDup (map fst l) -> conv_all l = Some m -> NoDup (map fst m).
Proof.
  intros l m Hnd H. apply conv_all_keys in H.
  induction H as [|x y l m Hr H IH]; [constructor|].
  simpl in Hnd |- *. apply NoDup_cons_iff in Hnd as [Hx Hnd].
  constructor; [|auto].
  intro Hin. apply in_map_iff in Hin as (y' & Hy & Hin).
  destruct (Forall2_in_r _ _ _ _ H Hin) as (x' & Hx' & Hr').
  apply Hx. rewrite (feature_mapping_inj (fst x) (fst x') (fst y) Hr); [|congruence].
  apply in_map. exact Hx'.
Qed.

Lemma convert_inputs_conv_all :
  forall l, NoDup (map fst l) -> convert_inputs l = conv_all l.
Proof.
  intros l Hnd. unfold convert_inputs. rewrite convert_loop_conv_all.
  destruct (conv_all l) as [m|] eqn:E; [|reflexivity].
  simpl. rewrite set_all_nodup; [reflexivity|].
  exact (conv_all_nodup _ _ Hnd E).
Qed.

Lemma opt_rel_trans :
  forall {A} (R : A -> A -> Prop),
    (forall a b c, R a b -> R b c -> R a c) ->
    forall o1 o2 o3, opt_rel R o1 o2 -> opt_rel R o2 o3 -> opt_rel R o1 o3.
Proof.
  intros A R HR [a|] [b|] [c|]; simpl; try tauto. apply HR.
Qed.

Lemma conv_all_perm :
  forall l1 l2, Permutation l1 l2 -> opt_rel (@Permutation _) (conv_all l1) (conv_all l2).
Proof.
  intros l1 l2 H. induction H as [|[k v] l1 l2 H IH|[k1 v1] [k2 v2] l|l1 l2 l3 H1 IH1 H2 IH2].
  - simpl. constructor.
  - simpl. destruct (convert_entry k v) as [e|]; [|exact I].
    destruct (conv_all l1), (conv_all l2); simpl in *; auto.
  - simpl. destruct (convert_entry k2 v2) as [e2|], (convert_entry k1 v1) as [e1|],
      (conv_all l); simpl; try exact I. apply perm_swap.
  - eapply opt_rel_trans; [|exact IH1|exact IH2]. intros a b c. apply Permutation_trans.
Qed.

Definition perm2 (p q : list string * list string) : Prop :=
  Permutation (fst p) (fst q) /\ Permutation (snd p) (snd q).

Lemma advisory_loop_perm :
  forall l1 l2, Permutation l1 l2 -> opt_rel perm2 (advisory_loop l1) (advisory_loop l2).
Proof.
  intros l1 l2 H. induction H as [|[k v] l1 l2 H IH|[k1 v1] [k2 v2] l|l1 l2 l3 H1 IH1 H2 IH2].
  - simpl. split; constructor.
  - simpl. destruct (check_entry k v) as [[ab adv]|]; [|exact I].
    destruct (advisory_loop l1) as [[a1 v1]|], (advisory_loop l2) as [[a2 v2]|];
      simpl in *; try tauto.
    destruct IH as [Ha Hv]. split; apply Permutation_app_head; assumption.
  - simpl. destruct (check_entry k2 v2) as [[a2 d2]|], (check_entry k1 v1) as [[a1 d1]|];
      simpl; try exact I.
    destruct (advisory_loop l) as [[a d]|]; simpl; [|exact I].
    split; rewrite !app_assoc; apply Permutation_app_tail, Permutation_app_comm.
  - eapply opt_rel_trans; [|exact IH1|exact IH2].
    intros a b c [Hab Hab'] [Hbc Hbc']. split; eapply Permutation_trans; eassumption.
Qed.

Lemma dict_get_perm :
  forall {A} k (d1 d2 : list (string * A)),
    Permutation d1 d2 -> NoDup (map fst d1) -> dict_get k d1 = dict_get k d2.
Proof.
  intros A k d1 d2 H. induction H as [|[k' v] d1 d2 H IH|[k1 v1] [k2 v2] d|d1 d2 d3 H1 IH1 H2 IH2];
    intros Hnd.
  - reflexivity.
  - simpl in *. apply NoDup_cons_iff in Hnd as [_ Hnd].
    destruct (String.eqb k k'); [reflexivity|auto].
  - simpl in *. apply NoDup_cons_iff in Hnd as [Hn _].
    destruct (String.eqb_spec k k2) as [E2|N2], (String.eqb_spec k k1) as [E1|N1];
      try reflexivity.
    exfalso. apply Hn. left. congruence.
  - rewrite IH1 by exact Hnd. apply IH2.
    apply (Permutation_NoDup (Permutation_map fst H1)). exact Hnd.
Qed.

Lemma classifier_input_perm :
  forall pl i1 i2, NoDup (map fst i1) -> Permutation i1 i2 ->
    classifier_input pl i1 = classifier_input pl i2.
Proof.
  intros pl i1 i2 Hnd Hp.
  assert (Hnd2 : NoDup (map fst i2))
    by (apply (Permutation_NoDup (Permutation_map fst Hp)); exact Hnd).
  unfold classifier_input.
  rewrite (convert_inputs_conv_all _ Hnd), (convert_inputs_conv_all _ Hnd2).
  pose proof (conv_all_perm _ _ Hp) as Hc.
  destruct (conv_all i1) as [m1|] eqn:E1, (conv_all i2) as [m2|] eqn:E2;
    simpl in Hc; try contradiction; [|reflexivity].
  f_equal. unfold build_row. apply map_ext. intro f. f_equal.
  apply dict_get_perm; [exact Hc|].
  exact (conv_all_nodup _ _ Hnd E1).
Qed.

(** ** Claims on vector assembly *)

(** C2 (amended).  Position [i] of the assembled row carries the value of
    the feature named [features[i]]; for inputs with distinct keys,
    reordering them changes neither the row handed to the classifier nor
    the probability, the label or whether the call fails; the abnormal
    list and the advice list keep the same entries, in the iteration order
    of the monitored keys. *)
Theorem C2_order_invariance :
  forall pl i1 i2,
    NoDup (map fst i1) -> Permutation i1 i2 ->
    (forall input_data i f,
       convert_inputs i1 = Some input_data -> nth_error (features pl) i = Some f ->
       nth_error (build_row (features pl) input_data) i
         = Some (option_map inject_Z (dict_get f input_data))) /\
    classifier_input pl i1 = classifier_input pl i2 /\
    (score pl i1 = None <-> score pl i2 = None) /\
    (forall r1 r2, score pl i1 = Some r1 -> score pl i2 = Some r2 ->
       prob r1 = prob r2 /\ risk r1 = risk r2 /\
       Permutation (abnormal_vars r1) (abnormal_vars r2) /\
       Permutation (advice r1) (advice r2)).
Proof.
  intros pl i1 i2 Hnd Hp.
  pose proof (classifier_input_perm pl _ _ Hnd Hp) as Hci.
  pose proof (advisory_loop_perm _ _ Hp) as Ha.
  split; [intros d i f _ Hf; apply nth_error_build_row; exact Hf|].
  split; [exact Hci|].
  unfold score. rewrite Hci.
  destruct (classifier_input pl i2) as [row|]; [|split; [split; reflexivity|discriminate]].
  destruct (model pl row) as [p|]; [|split; [split; reflexivity|discriminate]].
  destruct (advisory_loop i1) as [[a1 d1]|], (advisory_loop i2) as [[a2 d2]|];
    simpl in Ha; try contradiction.
  - split; [split; discriminate|].
    intros r1 r2 H1 H2. injection H1 as <-. injection H2 as <-. simpl.
    destruct Ha as [Hab Hadv]. auto.
  - split; [split; reflexivity|discriminate].
Qed.

Lemma C2_order_invariance_witness :
  classifier_input demo_pipeline default_form
    = classifier_input demo_pipeline
        [ ("Hb", VInt 130); ("Age", VInt 65); ("AST", VInt 30);
          ("Respiratory support", VStr "No"); ("Beta blocker", VStr "No");
          ("Cardiotonics", VStr "No"); ("Statins", VStr "No");
          ("Stent for IRA", VStr "No stent") ].
Proof.
  refine (proj1 (proj2 (C2_order_invariance demo_pipeline default_form _ _ _))).
  - unfold default_form, form. simpl.
    repeat constructor; simpl; intros H; repeat destruct H as [H|H]; try discriminate H;
      exact H.
  - unfold default_form, form. apply perm_swap.
Defined.

(** C2 fails as stated: swapping the Hb and AST keys of a form with Hb 90
    and AST 250 swaps the two advice strings, so the two results differ. *)
Lemma C2_advice_order_follows_inputs :
  let i1 := form 65 90 250 "No" "No" "No" "No" "No stent" in
  let i2 := [ ("Age", VInt 65); ("AST", VInt 250); ("Hb", VInt 90);
              ("Respiratory support", VStr "No"); ("Beta blocker", VStr "No");
              ("Cardiotonics", VStr "No"); ("Statins", VStr "No");
              ("Stent for IRA", VStr "No stent") ] in
  Permutation i1 i2 /\ NoDup (map fst i1) /\
  option_map advice (score demo_pipeline i1)
    = Some ["<b>Hemoglobin (90 g/L)</b>: Below normal range (130-175 g/L). Consider anemia workup and iron studies.";
            "<b>AST (250 U/L)</b>: Elevated above normal (10-40 U/L). May indicate ongoing myocardial injury or liver dysfunction."] /\
  option_map advice (score demo_pipeline i2)
    = Some ["<b>AST (250 U/L)</b>: Elevated above normal (10-40 U/L). May indicate ongoing myocardial injury or liver dysfunction.";
            "<b>Hemoglobin (90 g/L)</b>: Below normal range (130-175 g/L). Consider anemia workup and iron studies."] /\
  score demo_pipeline i1 <> score demo_pipeline i2.
Proof.
  cbv zeta. split; [|split; [|split; [reflexivity|split; [reflexivity|]]]].
  - unfold form. apply perm_skip. apply perm_swap.
  - unfold form. simpl.
    repeat constructor; simpl; intros H; repeat destruct H as [H|H]; try discriminate H;
      exact H.
  - vm_compute. intro H. discriminate H.
Qed.

(** A [features.txt] listing a column the form never fills, a scaler
    fitted on those nine columns, and a classifier that accepts missing
    values. *)
Definition missing_pipeline : Pipeline := {|
  model := fun _ => Some (1 # 5);
  n_features_in_ := 9;
  feature_names_in_ := Some (features demo_pipeline ++ ["Creatinine"])%list;
  with_mean := true;
  with_std := true;
  mean_ := (mean_ demo_pipeline ++ [80])%list;
  scale_ := (scale_ demo_pipeline ++ [20])%list;
  features := (features demo_pipeline ++ ["Creatinine"])%list
|}.

(** C4 (amended).  There is no missing-feature check: a [features] name
    absent from [input_data] gives a [NaN] cell, which scaling keeps [NaN].
    When the scaler accepts the DataFrame, the call fails exactly when the
    classifier rejects the row or the abnormal-value loop raises (a string
    in Age, Hb or AST); a scaler that does not accept it makes every call
    fail. *)
Theorem C4_missing_feature_is_nan :
  (forall pl inputs input_data i f,
    convert_inputs inputs = Some input_data ->
    scaler_accepts pl ->
    nth_error (features pl) i = Some f ->
    dict_get f input_data = None ->
    exists row,
      classifier_input pl inputs = Some row /\ nth_error row i = Some None /\
      (score pl inputs = None <->
       model pl row = None \/
       exists k s, In (k, VStr s) inputs /\ dict_get k normal_ranges <> None)) /\
  (forall pl inputs, ~ scaler_accepts pl -> score pl inputs = None).
Proof.
  split.
  - intros pl inputs d i f Hc Ha Hf Hd.
    destruct (classifier_input_nth pl inputs d i f Hc Ha Hf) as (row & Hrow & Hi).
    exists row. split; [exact Hrow|]. split; [rewrite Hi, Hd; reflexivity|].
    rewrite <- advisory_loop_none_iff.
    unfold score. rewrite Hrow.
    destruct (model pl row) as [p|]; [|tauto].
    destruct (advisory_loop inputs) as [[ab adv]|].
    + split; [discriminate|intros [H|H]; discriminate H].
    + tauto.
  - intros pl inputs H. unfold score. rewrite (classifier_input_rejected _ _ H).
    reflexivity.
Qed.

Lemma C4_missing_feature_is_nan_witness :
  (exists row,
    classifier_input missing_pipeline default_form = Some row /\
    nth_error row 8%nat = Some None /\
    (score missing_pipeline default_form = None <->
     model missing_pipeline row = None \/
     exists k s, In (k, VStr s) default_form /\ dict_get k normal_ranges <> None)) /\
  score swapped_pipeline default_form = None.
Proof.
  split.
  - exact (proj1 C4_missing_feature_is_nan missing_pipeline default_form default_data 8%nat
             "Creatinine" eq_refl (conj eq_refl eq_refl) eq_refl eq_refl).
  - apply (proj2 C4_missing_feature_is_nan). intros [Hn _]. discriminate Hn.
Defined.

(** C4 fails as stated: with [Creatinine] listed but never entered, the
    call still returns a probability. *)
Lemma C4_missing_feature_scored :
  convert_inputs default_form = Some default_data /\
  dict_get "Creatinine" default_data = None /\
  In "Creatinine" (features missing_pipeline) /\
  score missing_pipeline default_form = Some default_result.
Proof.
  split; [reflexivity|]. split; [reflexivity|]. split; [|reflexivity].
  simpl. do 8 right. left. reflexivity.
Qed.

(** ** Lines 26-28: reading [features.txt] *)

(** [str.isspace] on an ASCII character: tab to carriage return, the four
    separators 0x1c-0x1f, and space. *)
Definition is_space (c : ascii) : bool :=
  let n := nat_of_ascii c in
  ((Nat.leb 9 n) && (Nat.leb n 13)) || ((Nat.leb 28 n) && (Nat.leb n 32)).

Fixpoint lstrip (l : list ascii) : list ascii :=
  match l with
  | [] => []
  | c :: r => if is_space c then lstrip r else l
  end.

Definition rstrip (l : list ascii) : list ascii := rev (lstrip (rev l)).

(** [line.strip()] *)
Definition strip (l : list ascii) : list ascii := lstrip (rstrip l).

(** [.replace(" ", "_")] *)
Definition replace_space (l : list ascii) : list ascii :=
  map (fun c => if Ascii.eqb c " "%char then "_"%char else c) l.

(** [line.strip().replace(" ", "_")] *)
Definition normalize_line (l : list ascii) : list ascii :=
  replace_space (strip l).

(** [f.readlines()] on the text as read in text mode (newlines already
    translated to ["\n"]): every line keeps its ["\n"], the last one may
    lack it. [cur] is the current line, reversed. *)
Fixpoint readlines_aux (cur : list ascii) (l : list ascii) : list (list ascii) :=
  match l with
  | [] => match cur with [] => [] | _ => [rev cur] end
  | c :: r =>
      if Ascii.eqb c "010"%char then rev (c :: cur) :: readlines_aux [] r
      else readlines_aux (c :: cur) r
  end.

Definition readlines (text : string) : list (list ascii) :=
  readlines_aux [] (list_ascii_of_string text).

(** [features = [line.strip().replace(" ", "_") for line in f.readlines()]] *)
Definition load_features (text : string) : list string :=
  map (fun line => string_of_list_ascii (normalize_line line)) (readlines text).

Definition newline : ascii := "010"%char.

(** A list whose first character (if any) is not whitespace. *)
Definition starts_solid (l : list ascii) : Prop :=
  match l with [] => True | c :: _ => is_space c = false end.

Definition ends_solid (l : list ascii) : Prop := starts_solid (rev l).

(** ** Helper lemmas on stripping *)

Lemma lstrip_spaces_app :
  forall p m, forallb is_space p = true -> lstrip (p ++ m) = lstrip m.
Proof.
  induction p as [|c p IH]; intros m H; [reflexivity|].
  simpl in H |- *. apply andb_true_iff in H as [Hc Hp]. rewrite Hc. auto.
Qed.

Lemma lstrip_solid : forall m, starts_solid m -> lstrip m = m.
Proof. intros [|c m] H; simpl in *; [reflexivity|]. rewrite H. reflexivity. Qed.

Lemma lstrip_starts_solid : forall m, starts_solid (lstrip m).
Proof.
  induction m as [|c m IH]; simpl; [exact I|].
  destruct (is_space c) eqn:E; [exact IH|exact E].
Qed.

Lemma lstrip_suffix : forall m, exists pre, m = (pre ++ lstrip m)%list.
Proof.
  induction m as [|c m IH]; simpl; [exists []; reflexivity|].
  destruct (is_space c).
  - destruct IH as [pre E]. exists (c :: pre). simpl. congruence.
  - exists []. reflexivity.
Qed.

Lemma ends_solid_suffix :
  forall pre s, ends_solid (pre ++ s) -> s <> [] -> ends_solid s.
Proof.
  unfold ends_solid. intros pre s H Hs.
  destruct (rev s) as [|c r] eqn:E.
  - exfalso. apply Hs. rewrite <- (rev_involutive s), E. reflexivity.
  - rewrite rev_app_distr, E in H. exact H.
Qed.

Lemma rstrip_ends_solid : forall m, ends_solid (rstrip m).
Proof.
  intro m. unfold ends_solid, rstrip. rewrite rev_involutive.
  apply lstrip_starts_solid.
Qed.

Lemma strip_solid :
  forall m, starts_solid m -> ends_solid m -> strip m = m.
Proof.
  intros m Hs He. unfold strip, rstrip.
  rewrite (lstrip_solid (rev m) He), rev_involutive. apply lstrip_solid. exact Hs.
Qed.

Lemma strip_starts_solid : forall m, starts_solid (strip m).
Proof. intro m. apply lstrip_starts_solid. Qed.

Lemma strip_ends_solid : forall m, ends_solid (strip m).
Proof.
  intro m. unfold strip.
  destruct (lstrip (rstrip m)) as [|c r] eqn:E; [exact I|].
  destruct (lstrip_suffix (rstrip m)) as [pre Hpre].
  rewrite <- E. apply (ends_solid_suffix pre).
  - rewrite <- Hpre. apply rstrip_ends_solid.
  - rewrite E. discriminate.
Qed.

Lemma forallb_rev_true :
  forall (f : ascii -> bool) l, forallb f l = true -> forallb f (rev l) = true.
Proof.
  intros f l H. apply forallb_forall. intros x Hx.
  apply (proj1 (forallb_forall f l)); [exact H|]. apply in_rev. exact Hx.
Qed.

Lemma strip_padded :
  forall p m q,
    forallb is_space p = true -> forallb is_space q = true ->
    starts_solid m -> ends_solid m -> strip (p ++ m ++ q) = m.
Proof.
  intros p m q Hp Hq Hs He. unfold strip, rstrip.
  rewrite !rev_app_distr, <- app_assoc.
  rewrite (lstrip_spaces_app (rev q) _ (forallb_rev_true _ _ Hq)).
  unfold ends_solid in He.
  destruct (rev m) as [|c r] eqn:Em.
  - assert (Hm : m = []) by (rewrite <- (rev_involutive m), Em; reflexivity).
    subst m. simpl.
    rewrite <- (app_nil_r (rev p)), (lstrip_spaces_app _ _ (forallb_rev_true _ _ Hp)).
    reflexivity.
  - simpl. simpl in He. rewrite He.
    change (c :: (r ++ rev p))%list with ((c :: r) ++ rev p)%list.
    rewrite <- Em, rev_app_distr, !rev_involutive.
    rewrite (lstrip_spaces_app _ _ Hp). apply lstrip_solid. exact Hs.
Qed.

Lemma strip_trailing_space :
  forall l c, is_space c = true -> strip (l ++ [c]) = strip l.
Proof.
  intros l c Hc. unfold strip, rstrip.
  rewrite rev_app_distr. simpl. rewrite Hc. reflexivity.
Qed.

Lemma readlines_aux_line :
  forall line cur rest,
    ~ In newline line ->
    readlines_aux cur (line ++ newline :: rest)
      = ((rev cur ++ line ++ [newline])%list :: readlines_aux [] rest).
Proof.
  induction line as [|c line IH]; intros cur rest Hn.
  - reflexivity.
  - simpl. destruct (Ascii.eqb_spec c "010"%char) as [E|_].
    + exfalso. apply Hn. left. exact E.
    + rewrite IH by (intro H; apply Hn; right; exact H).
      simpl. rewrite <- ?app_assoc. reflexivity.
Qed.

Lemma replace_space_keeps_solid :
  forall c, is_space c = false ->
    (if Ascii.eqb c " "%char then "_"%char else c) = c.
Proof.
  intros c H. destruct (Ascii.eqb_spec c " "%char) as [->|_]; [discriminate|reflexivity].
Qed.

Lemma replace_space_starts_solid :
  forall l, starts_solid l -> starts_solid (replace_space l).
Proof.
  intros [|c l] H; simpl in *; [exact I|]. rewrite replace_space_keeps_solid; exact H.
Qed.

Lemma replace_space_ends_solid :
  forall l, ends_solid l -> ends_solid (replace_space l).
Proof.
  unfold ends_solid, replace_space. intros l H. rewrite <- map_rev.
  destruct (rev l) as [|c r]; simpl in *; [exact I|].
  rewrite replace_space_keeps_solid; exact H.
Qed.

Lemma replace_space_idem :
  forall l, replace_space (replace_space l) = replace_space l.
Proof.
  intro l. unfold replace_space. rewrite map_map. apply map_ext. intro c.
  destruct (Ascii.eqb_spec c " "%char) as [->|N]; [reflexivity|].
  destruct (Ascii.eqb_spec c " "%char); [contradiction|reflexivity].
Qed.

(** ** Extra properties *)

(** [features.txt] written with the sidebar's display names (spaces, any
    surrounding whitespace) normalizes to exactly the model feature names
    [feature_mapping] converts them to. *)
Theorem features_line_matches_mapping :
  forall k f p q,
    In (k, f) feature_mapping ->
    forallb is_space p = true -> forallb is_space q = true ->
    string_of_list_ascii (normalize_line (p ++ list_ascii_of_string k ++ q)) = f.
Proof.
  intros k f p q Hin Hp Hq.
  simpl in Hin.
  repeat destruct Hin as [E|Hin]; try contradiction; injection E as <- <-;
    unfold normalize_line; rewrite strip_padded by (assumption || reflexivity);
    reflexivity.
Qed.

Lemma features_line_matches_mapping_witness :
  string_of_list_ascii
    (normalize_line ([" "%char] ++ list_ascii_of_string "Beta blocker" ++ [newline]))
  = "Beta_blocker".
Proof.
  apply (features_line_matches_mapping "Beta blocker"); [|reflexivity|reflexivity].
  simpl. do 4 right. left. reflexivity.
Defined.

(** Normalizing a [features.txt] line twice changes nothing, and the result
    has no space left and no whitespace at either end. *)
Theorem normalize_line_idempotent :
  forall l,
    normalize_line (normalize_line l) = normalize_line l /\
    ~ In " "%char (normalize_line l) /\
    starts_solid (normalize_line l) /\ ends_solid (normalize_line l).
Proof.
  intro l. unfold normalize_line.
  pose proof (replace_space_starts_solid _ (strip_starts_solid l)) as Hs.
  pose proof (replace_space_ends_solid _ (strip_ends_solid l)) as He.
  split; [|split; [|split; assumption]].
  - rewrite (strip_solid _ Hs He). apply replace_space_idem.
  - unfold replace_space. intro H.
    destruct (proj1 (in_map_iff _ _ _) H) as (c & Hc & _).
    destruct (Ascii.eqb_spec c " "%char) as [E|N]; [discriminate Hc|contradiction].
Qed.

(** A [features.txt] whose lines each end in a newline gives one feature
    per line, each line normalized on its own (its newline dropped). *)
Theorem load_features_lines :
  forall lines,
    Forall (fun l => ~ In newline l) lines ->
    load_features (string_of_list_ascii (List.concat (map (fun l => (l ++ [newline])%list) lines)))
      = map (fun l => string_of_list_ascii (normalize_line l)) lines.
Proof.
  intros lines H. unfold load_features, readlines.
  rewrite list_ascii_of_string_of_list_ascii.
  induction H as [|l lines Hl H IH]; [reflexivity|].
  simpl. rewrite <- app_assoc. simpl. rewrite readlines_aux_line by exact Hl.
  simpl. rewrite IH. f_equal. f_equal. unfold normalize_line.
  rewrite strip_trailing_space by reflexivity. reflexivity.
Qed.

Lemma load_features_lines_witness :
  load_features (string_of_list_ascii
    (List.concat (map (fun l => (l ++ [newline])%list)
       [list_ascii_of_string "Age"; list_ascii_of_string "Stent for IRA "])))
  = ["Age"; "Stent_for_IRA"].
Proof.
  rewrite load_features_lines; [reflexivity|].
  repeat constructor; simpl; intro H; repeat destruct H as [H|H];
    try discriminate H; exact H.
Defined.

(** One entry raises exactly when its display name is not a key of
    [feature_mapping], or it is the stent entry and its value is not one of
    the three labels of [stent_mapping]. *)
Lemma convert_entry_none_iff :
  forall k v,
    convert_entry k v = None <->
    dict_get k feature_mapping = None \/
    (k = "Stent for IRA" /\ forall s, v = VStr s -> dict_get s stent_mapping = None).
Proof.
  intros k v. unfold convert_entry.
  destruct (dict_get k feature_mapping) as [mf|] eqn:F.
  - destruct (String.eqb_spec k "Stent for IRA") as [->|Hk].
    + destruct v as [z|s].
      * split; [intros _; right; split; [reflexivity|discriminate]|reflexivity].
      * destruct (dict_get s stent_mapping) as [c|] eqn:S; split.
        -- discriminate.
        -- intros [D|[_ Hs]]; [discriminate D|]. rewrite (Hs s eq_refl) in S. discriminate S.
        -- intros _. right. split; [reflexivity|]. intros s' Hs'. injection Hs' as <-. exact S.
        -- reflexivity.
    + destruct v; split; try discriminate; intros [D|[E _]]; [discriminate D|contradiction|discriminate D|contradiction].
  - split; [intros _; left; reflexivity|reflexivity].
Qed.

(** Converting [inputs] raises exactly when some entry has a display name
    outside [feature_mapping], or is the stent entry with a value outside
    the three stent labels. *)
Theorem convert_inputs_fails_iff :
  forall inputs,
    convert_inputs inputs = None <->
    exists k v, In (k, v) inputs /\
      (dict_get k feature_mapping = None \/
       (k = "Stent for IRA" /\ forall s, v = VStr s -> dict_get s stent_mapping = None)).
Proof.
  intro inputs.
  assert (G : forall acc, convert_loop acc inputs = None <->
                exists k v, In (k, v) inputs /\ convert_entry k v = None).
  { induction inputs as [|[k0 v0] l IH]; intro acc; split.
    - discriminate.
    - intros (k & v & [] & _).
    - simpl. destruct (convert_entry k0 v0) as [[f c]|] eqn:E.
      + intro H. apply IH in H as (k & v & Hin & Hc). exists k, v. split; [right|]; assumption.
      + intros _. exists k0, v0. split; [left; reflexivity|exact E].
    - intros (k & v & Hin & Hc). exact (convert_loop_fail _ _ _ _ Hin Hc). }
  unfold convert_inputs. rewrite G. split.
  - intros (k & v & Hin & Hc). exists k, v. split; [exact Hin|apply convert_entry_none_iff, Hc].
  - intros (k & v & Hin & Hc). exists k, v. split; [exact Hin|apply convert_entry_none_iff, Hc].
Qed.

Lemma convert_inputs_fails_iff_witness :
  convert_inputs [("Age", VInt 65); ("Stent for IRA", VStr "Stent")] = None.
Proof.
  apply convert_inputs_fails_iff. exists "Stent for IRA", (VStr "Stent").
  split; [right; left; reflexivity|].
  right. split; [reflexivity|]. intros s Hs. injection Hs as <-. reflexivity.
Defined.

(** The advice loop raises (a [str] compared with an [int]) exactly when
    one of Age, Hb, AST carries a string. *)
Theorem advisory_loop_fails_iff :
  forall inputs,
    advisory_loop inputs = None <->
    exists k s, In (k, VStr s) inputs /\ dict_get k normal_ranges <> None.
Proof. exact advisory_loop_none_iff. Qed.

Lemma advisory_loop_fails_iff_witness :
  advisory_loop [("Statins", VStr "Yes"); ("Hb", VStr "90")] = None.
Proof.
  apply advisory_loop_fails_iff. exists "Hb", "90".
  split; [right; left; reflexivity|discriminate].
Defined.

Lemma check_entry_abnormal :
  forall k v ab adv x,
    check_entry k v = Some (ab, adv) ->
    (In x ab <-> exists z lo hi, x = k /\ v = VInt z /\
       dict_get k normal_ranges = Some (lo, hi) /\ (z < lo \/ z > hi)%Z).
Proof.
  intros k v ab adv x. unfold check_entry.
  destruct (dict_get k normal_ranges) as [[lo hi]|].
  - destruct v as [z|s]; [|discriminate].
    destruct ((z <? lo)%Z || (z >? hi)%Z) eqn:E; intro H; injection H as <- _.
    + apply orb_true_iff in E. split.
      * intros [<-|[]]. exists z, lo, hi. repeat split.
        destruct E as [E|E]; [left; apply Z.ltb_lt; exact E|].
        right. rewrite Z.gtb_ltb in E. apply Z.ltb_lt in E. lia.
      * intros (z' & lo' & hi' & -> & _). left. reflexivity.
    + apply orb_false_iff in E as [E1 E2]. split; [intros []|].
      intros (z' & lo' & hi' & _ & Hv & Hr & Hz). injection Hv as <-.
      injection Hr as <- <-. apply Z.ltb_ge in E1.
      rewrite Z.gtb_ltb in E2. apply Z.ltb_ge in E2. lia.
  - intro H. injection H as <- _. split; [intros []|].
    intros (z & lo & hi & _ & _ & Hr & _). discriminate Hr.
Qed.

(** [abnormal_vars] lists exactly the monitored names (Age, Hb, AST) whose
    [int] value lies strictly outside its [normal_ranges] interval. *)
Theorem abnormal_vars_exact :
  forall inputs ab adv x,
    advisory_loop inputs = Some (ab, adv) ->
    (In x ab <-> exists z lo hi, In (x, VInt z) inputs /\
       dict_get x normal_ranges = Some (lo, hi) /\ (z < lo \/ z > hi)%Z).
Proof.
  induction inputs as [|[k v] l IH]; intros ab adv x H.
  - injection H as <- <-. split; [intros []|]. intros (z & lo & hi & [] & _).
  - destruct (advisory_loop_app _ _ _ _ _ H) as (ab1 & adv1 & ab2 & adv2 & H1 & H2 & -> & ->).
    rewrite in_app_iff, (check_entry_abnormal _ _ _ _ x H1), (IH _ _ x H2). split.
    + intros [(z & lo & hi & -> & -> & Hr & Hz)|(z & lo & hi & Hin & Hr & Hz)].
      * exists z, lo, hi. split; [left; reflexivity|auto].
      * exists z, lo, hi. split; [right; exact Hin|auto].
    + intros (z & lo & hi & [E|Hin] & Hr & Hz).
      * injection E as -> ->. left. exists z, lo, hi. auto.
      * right. exists z, lo, hi. auto.
Qed.

Lemma abnormal_vars_exact_witness :
  In "Hb" ["Hb"; "AST"] <->
  exists z lo hi, In ("Hb", VInt z) (form 65 90 250 "No" "No" "No" "No" "No stent") /\
    dict_get "Hb" normal_ranges = Some (lo, hi) /\ (z < lo \/ z > hi)%Z.
Proof.
  apply (abnormal_vars_exact _ _ ["<b>Hemoglobin (90 g/L)</b>: Below normal range (130-175 g/L). Consider anemia workup and iron studies.";
            "<b>AST (250 U/L)</b>: Elevated above normal (10-40 U/L). May indicate ongoing myocardial injury or liver dysfunction."]).
  reflexivity.
Defined.

(** ** Lines 250-255: rendering the advice *)

(** The advice strings are shown only under [if abnormal_vars:]. *)
Definition rendered_advice (r : Result) : list string :=
  match abnormal_vars r with
  | [] => []
  | _ => advice r
  end.

Lemma check_entry_lengths :
  forall k v ab adv, check_entry k v = Some (ab, adv) -> (List.length adv <= List.length ab)%nat.
Proof.
  intros k v ab adv. unfold check_entry.
  destruct (dict_get k normal_ranges) as [[lo hi]|];
    [|intro H; injection H as <- <-; constructor].
  destruct v as [z|s]; [|discriminate].
  destruct ((z <? lo)%Z || (z >? hi)%Z); intro H; injection H as <- <-; [|constructor].
  repeat match goal with |- context [if ?b then _ else _] => destruct b end;
    simpl; auto.
Qed.

Lemma advisory_loop_lengths :
  forall l ab adv, advisory_loop l = Some (ab, adv) -> (List.length adv <= List.length ab)%nat.
Proof.
  induction l as [|[k v] l IH]; intros ab adv H.
  - injection H as <- <-. constructor.
  - destruct (advisory_loop_app _ _ _ _ _ H) as (ab1 & adv1 & ab2 & adv2 & H1 & H2 & -> & ->).
    rewrite !length_app. pose proof (check_entry_lengths _ _ _ _ H1).
    pose proof (IH _ _ H2). lia.
Qed.

(** There are never more advice strings than abnormal parameters, so the
    [if abnormal_vars:] guard never hides an advice. *)
Theorem advice_never_hidden :
  forall pl inputs r,
    score pl inputs = Some r ->
    (List.length (advice r) <= List.length (abnormal_vars r))%nat /\
    rendered_advice r = advice r.
Proof.
  intros pl inputs r H.
  destruct (score_some_inv _ _ _ H) as (row & _ & _ & _ & Ha).
  pose proof (advisory_loop_lengths _ _ _ Ha) as Hl.
  split; [exact Hl|]. unfold rendered_advice.
  destruct (abnormal_vars r); [|reflexivity].
  destruct (advice r); [reflexivity|]. simpl in Hl. lia.
Qed.

Lemma advice_never_hidden_witness :
  (List.length (advice default_result) <= List.length (abnormal_vars default_result))%nat /\
  rendered_advice default_result = advice default_result.
Proof. exact (advice_never_hidden demo_pipeline default_form default_result eq_refl). Defined.

(** ** Lines 156-168: the sidebar widgets *)

Definition stent_options : list string :=
  ["No stent"; "Drug-eluting stent (DES)"; "Bare-metal stent (BMS)"].

Definition yes_no_code (s : string) : Z := if String.eqb s "Yes" then 1%Z else 0%Z.

(** Whatever the sliders and the yes/no boxes hold, a stent choice from
    the selectbox converts to the dict of all eight model features, in the
    form's order, the stent coded 0, 1 or 2. *)
Theorem sidebar_converts :
  forall age hb ast resp beta cardio statins stent,
    In stent stent_options ->
    exists c, In c [0%Z; 1%Z; 2%Z] /\
      convert_inputs (form age hb ast resp beta cardio statins stent)
        = Some [ ("Age", age); ("Hb", hb); ("AST", ast);
                 ("Respiratory_support", yes_no_code resp);
                 ("Beta_blocker", yes_no_code beta);
                 ("Cardiotonics", yes_no_code cardio);
                 ("Statins", yes_no_code statins);
                 ("Stent_for_IRA", c) ].
Proof.
  intros age hb ast resp beta cardio statins stent Hs.
  destruct Hs as [<-|[<-|[<-|[]]]];
    [exists 0%Z|exists 1%Z|exists 2%Z]; (split; [simpl; tauto|reflexivity]).
Qed.

Lemma sidebar_converts_witness :
  exists c, In c [0%Z; 1%Z; 2%Z] /\
    convert_inputs (form 70 110 45 "Yes" "No" "Yes" "No" "Bare-metal stent (BMS)")
      = Some [ ("Age", 70%Z); ("Hb", 110%Z); ("AST", 45%Z);
               ("Respiratory_support", yes_no_code "Yes");
               ("Beta_blocker", yes_no_code "No");
               ("Cardiotonics", yes_no_code "Yes");
               ("Statins", yes_no_code "No");
               ("Stent_for_IRA", c) ].
Proof.
  apply sidebar_converts. right; right; left; reflexivity.
Defined.

(** With the Age slider's range 30..100, Age is never flagged abnormal:
    the advice loop succeeds on every sidebar form and only Hb or AST can
    appear in [abnormal_vars]. *)
Theorem sidebar_age_never_flagged :
  forall age hb ast resp beta cardio statins stent,
    (30 <= age <= 100)%Z ->
    exists ab adv,
      advisory_loop (form age hb ast resp beta cardio statins stent) = Some (ab, adv) /\
      ~ In "Age" ab /\ incl ab ["Hb"; "AST"].
Proof.
  intros age hb ast resp beta cardio statins stent Ha.
  set (l := form age hb ast resp beta cardio statins stent).
  destruct (advisory_loop l) as [[ab adv]|] eqn:E.
  - assert (Hab : forall x, In x ab -> x = "Hb" \/ x = "AST").
    { intros x Hx. apply (abnormal_vars_exact _ _ _ x E) in Hx as (z & lo & hi & Hin & Hr & Hz).
      unfold l, form in Hin. simpl in Hin.
      repeat destruct Hin as [Hin|Hin]; try contradiction; inversion Hin; subst;
        try discriminate.
      - simpl in Hr. injection Hr as <- <-. lia.
      - left; reflexivity.
      - right; reflexivity. }
    exists ab, adv. split; [reflexivity|]. split.
    + intro H. destruct (Hab _ H) as [H'|H']; discriminate H'.
    + intros x Hx. destruct (Hab _ Hx) as [->| ->]; simpl; auto.
  - exfalso. apply advisory_loop_fails_iff in E as (k & s & Hin & Hm).
    unfold l, form in Hin. simpl in Hin.
    repeat destruct Hin as [Hin|Hin]; try contradiction; inversion Hin; subst;
      apply Hm; reflexivity.
Qed.

Lemma sidebar_age_never_flagged_witness :
  exists ab adv,
    advisory_loop (form 100 90 5 "No" "Yes" "No" "Yes" "No stent") = Some (ab, adv) /\
    ~ In "Age" ab /\ incl ab ["Hb"; "AST"].
Proof. apply sidebar_age_never_flagged. lia. Defined.

(** When every name of [features.txt] is one of the eight model feature
    names, a sidebar form fills every cell of the row: no [NaN]. *)
Theorem sidebar_row_complete :
  forall feats age hb ast resp beta cardio statins stent,
    In stent stent_options ->
    Forall (fun f => In f (map snd feature_mapping)) feats ->
    exists input_data,
      convert_inputs (form age hb ast resp beta cardio statins stent) = Some input_data /\
      Forall (fun x => x <> None) (build_row feats input_data).
Proof.
  intros feats age hb ast resp beta cardio statins stent Hs Hf.
  destruct (sidebar_converts age hb ast resp beta cardio statins stent Hs) as (c & _ & Hc).
  eexists. split; [exact Hc|].
  unfold build_row. apply Forall_map. eapply Forall_impl; [|exact Hf].
  intros f Hin. simpl in Hin.
  repeat destruct Hin as [Hin|Hin]; try contradiction; subst f; discriminate.
Qed.

Lemma sidebar_row_complete_witness :
  exists input_data,
    convert_inputs (form 65 130 30 "No" "No" "No" "No" "No stent") = Some input_data /\
    Forall (fun x => x <> None) (build_row (features demo_pipeline) input_data).
Proof.
  apply sidebar_row_complete; [left; reflexivity|].
  apply Forall_forall. intros f Hf. simpl in Hf.
  repeat destruct Hf as [<-|Hf]; try contradiction; simpl; auto 10.
Defined.

(** A scaler whose width differs from the length of [features.txt] makes
    every prediction fail, whatever the classifier and the inputs. *)
Theorem width_mismatch_fails :
  forall pl inputs,
    List.length (features pl) <> n_features_in_ pl -> score pl inputs = None.
Proof.
  intros pl inputs H. unfold score, classifier_input.
  destruct (convert_inputs inputs) as [d|]; [|reflexivity].
  unfold transform. rewrite build_row_length.
  destruct (names_match pl); [|reflexivity].
  destruct (Nat.eqb_spec (List.length (features pl)) (n_features_in_ pl));
    [contradiction|reflexivity].
Qed.

Lemma width_mismatch_fails_witness :
  score {| model := model demo_pipeline; n_features_in_ := 8; feature_names_in_ := None;
           with_mean := true; with_std := true;
           mean_ := mean_ demo_pipeline; scale_ := scale_ demo_pipeline;
           features := ["Age"; "Hb"] |} default_form = None.
Proof. apply width_mismatch_fails. discriminate. Defined.

(** The label is monotone: a probability above one labelled High is High. *)
Theorem classify_monotone :
  forall p q, p <= q -> classify p = HighRisk -> classify q = HighRisk.
Proof.
  intros p q Hpq Hp. unfold classify in *.
  destruct (Qle_bool risk_threshold p) eqn:E; [|discriminate].
  apply Qle_bool_iff in E.
  assert (E' : Qle_bool risk_threshold q = true)
    by (apply Qle_bool_iff; eapply Qle_trans; eassumption).
  rewrite E'. reflexivity.
Qed.

Lemma classify_monotone_witness :
  classify (1 # 2) = HighRisk.
Proof. apply (classify_monotone (147 # 1000)); [discriminate|reflexivity]. Defined.

(** [d[k] = v] followed by [d[k]] gives [v]; other keys are untouched. *)
Theorem dict_set_get :
  forall {A} k (v : A) d,
    dict_get k (dict_set k v d) = Some v /\
    (forall k', k' <> k -> dict_get k' (dict_set k v d) = dict_get k' d).
Proof.
  intros A k v d. induction d as [|[k0 v0] d [IH1 IH2]]; simpl.
  - rewrite String.eqb_refl. split; [reflexivity|].
    intros k' Hk. destruct (String.eqb_spec k' k); [contradiction|reflexivity].
  - destruct (String.eqb_spec k k0) as [->|N]; simpl.
    + rewrite String.eqb_refl. split; [reflexivity|].
      intros k' Hk. destruct (String.eqb_spec k' k0); [contradiction|reflexivity].
    + destruct (String.eqb_spec k k0) as [E|_]; [contradiction|].
      split; [exact IH1|].
      intros k' Hk. destruct (String.eqb_spec k' k0); [reflexivity|]. apply IH2. exact Hk.
Qed.

Lemma dict_set_get_witness :
  dict_get "Hb" (dict_set "Age" 80%Z default_data) = dict_get "Hb" default_data.
Proof. apply (proj2 (dict_set_get "Age" 80%Z default_data)). discriminate. Defined.
